(** * StateForm: a shallow embedding of src/src/modules/states/StateForm.tsx

    The module is a React form that creates or edits a "state" (geographic
    region) record.  We embed its pure helpers ([prettifyFieldName],
    [extractErrorMessage]), the zod schema, and the component's reactions to
    user events, query results and mutation results as explicit state passing
    whose side effects are recorded in a trace of [Effect]s.

    JavaScript strings are modelled as [string] (one character per UTF-16
    code unit); the character-level JS primitives below ([toUpperCase], the
    regex class [A-Z], String.prototype.trim) are exact on 7-bit ASCII text,
    which is the alphabet of the server's field keys. *)

From Stdlib Require Import Strings.String Strings.Ascii Bool Arith Lia List.
Import ListNotations.
Open Scope string_scope.
Open Scope nat_scope.

(** ** Character-level JavaScript primitives *)

Module Js.

(** Regex class [A-Z]. *)
Definition is_upper (c : ascii) : bool :=
  let n := nat_of_ascii c in (65 <=? n) && (n <=? 90).

Definition is_lower (c : ascii) : bool :=
  let n := nat_of_ascii c in (97 <=? n) && (n <=? 122).

(** [String.prototype.toUpperCase] on one ASCII character. *)
Definition to_upper (c : ascii) : ascii :=
  if is_lower c then ascii_of_nat (nat_of_ascii c - 32) else c.

(** Case folding used by a regex with the [i] flag, on ASCII. *)
Definition to_lower (c : ascii) : ascii :=
  if is_upper c then ascii_of_nat (nat_of_ascii c + 32) else c.

Fixpoint lower_str (s : string) : string :=
  match s with
  | EmptyString => EmptyString
  | String c r => String (to_lower c) (lower_str r)
  end.

(** WhiteSpace and LineTerminator code points below 256
    (TAB, LF, VT, FF, CR, SPACE, NBSP). *)
Definition is_space (c : ascii) : bool :=
  let n := nat_of_ascii c in
  ((9 <=? n) && (n <=? 13)) || (n =? 32) || (n =? 160).

Fixpoint trim_start (s : string) : string :=
  match s with
  | EmptyString => EmptyString
  | String c r => if is_space c then trim_start r else s
  end.

(** Drop trailing white space. *)
Fixpoint trim_end (s : string) : string :=
  match s with
  | EmptyString => EmptyString
  | String c r =>
      match trim_end r with
      | EmptyString => if is_space c then EmptyString else String c EmptyString
      | r' => String c r'
      end
  end.

(** [String.prototype.trim]. *)
Definition trim (s : string) : string := trim_end (trim_start s).

(** [s.split("_")]. *)
Fixpoint split_underscore (s : string) : list string :=
  match s with
  | EmptyString => [EmptyString]
  | String c r =>
      let parts := split_underscore r in
      if Ascii.eqb c "_" then EmptyString :: parts
      else match parts with
           | p :: ps => String c p :: ps
           | [] => [String c EmptyString]
           end
  end.

(** [s.charAt(0).toUpperCase() + s.slice(1)]. *)
Definition capitalize (s : string) : string :=
  match s with
  | EmptyString => EmptyString
  | String c r => String (to_upper c) r
  end.

(** [s.indexOf(pat)]: the text before and after the first occurrence. *)
Fixpoint split_first (pat s : string) : option (string * string) :=
  if String.prefix pat s
  then Some (EmptyString, substring (String.length pat) (String.length s - String.length pat) s)
  else match s with
       | EmptyString => None
       | String c r =>
           match split_first pat r with
           | Some (pre, post) => Some (String c pre, post)
           | None => None
           end
       end.

(** GetSubstitution for a string pattern (no capture groups): [$$], [$&],
    [$`] and [$'] are expanded, every other [$] is literal. *)
Fixpoint get_substitution (matched pre post rep : string) : string :=
  match rep with
  | String "$" (String "$" r) => String "$" (get_substitution matched pre post r)
  | String "$" (String "&" r) => matched ++ get_substitution matched pre post r
  | String "$" (String "`" r) => pre ++ get_substitution matched pre post r
  | String "$" (String "'" r) => post ++ get_substitution matched pre post r
  | String c r => String c (get_substitution matched pre post r)
  | EmptyString => EmptyString
  end.

(** [s.replace(pat, rep)] with a string pattern: first occurrence only. *)
Definition replace (s pat rep : string) : string :=
  match split_first pat s with
  | Some (pre, post) => pre ++ get_substitution pat pre post rep ++ post
  | None => s
  end.

(** JavaScript truthiness of a string. *)
Definition truthy (s : string) : bool := negb (String.eqb s EmptyString).

(** [a || b] on strings. *)
Definition or_string (a b : string) : string := if truthy a then a else b.

End Js.

(** ** prettifyFieldName *)

(** [field.replace(/(key|id)$/i, "")]: the regex is tried at each position
    from the left; it matches where the rest of the string is, up to case,
    ["key"] or ["id"], and the first match is deleted. *)
Fixpoint strip_key_id (s : string) : string :=
  match s with
  | EmptyString => EmptyString
  | String c r =>
      if String.eqb (Js.lower_str s) "key" || String.eqb (Js.lower_str s) "id"
      then EmptyString
      else String c (strip_key_id r)
  end.

(** [field.replace(/([A-Z])/g, " $1")]. *)
Fixpoint space_before_upper (s : string) : string :=
  match s with
  | EmptyString => EmptyString
  | String c r =>
      if Js.is_upper c then String " " (String c (space_before_upper r))
      else String c (space_before_upper r)
  end.

Definition prettifyFieldName (key : string) : string :=
  let parts := Js.split_underscore key in
  let field := match parts with
               | _ :: p1 :: _ => p1
               | _ => key
               end in
  let field := strip_key_id field in
  let field := Js.trim (space_before_upper field) in
  Js.capitalize field.

(** The label algorithm as the specification words it (steps 1-4). *)
Module SpecLabel.

Definition first_segment_or_key (key : string) : string :=
  match Js.split_underscore key with
  | _ :: second :: _ => second
  | _ => key
  end.

(** Step 2: strip one trailing "key" or "id", case-insensitively. *)
Definition strip_suffix (s : string) : string :=
  let n := String.length s in
  if (3 <=? n) && String.eqb (Js.lower_str (substring (n - 3) 3 s)) "key"
  then substring 0 (n - 3) s
  else if (2 <=? n) && String.eqb (Js.lower_str (substring (n - 2) 2 s)) "id"
  then substring 0 (n - 2) s
  else s.

(** Step 3: a space before each uppercase letter that is not the first
    character. *)
Definition space_internal_upper (s : string) : string :=
  match s with
  | EmptyString => EmptyString
  | String c r => String c (space_before_upper r)
  end.

Definition label (key : string) : string :=
  Js.capitalize (Js.trim (space_internal_upper (strip_suffix (first_segment_or_key key)))).

End SpecLabel.

(** ** Facts about the label algorithm *)

Lemma upper_not_space (c : ascii) : Js.is_upper c = true -> Js.is_space c = false.
Proof.
  unfold Js.is_upper, Js.is_space.
  intros H. apply andb_true_iff in H as [H1 H2].
  apply Nat.leb_le in H1. apply Nat.leb_le in H2.
  destruct (9 <=? nat_of_ascii c) eqn:E1; destruct (nat_of_ascii c <=? 13) eqn:E2;
  destruct (nat_of_ascii c =? 32) eqn:E3; destruct (nat_of_ascii c =? 160) eqn:E4;
  simpl; try reflexivity;
  repeat match goal with
         | H : (_ <=? _) = true |- _ => apply Nat.leb_le in H
         | H : (_ =? _) = true |- _ => apply Nat.eqb_eq in H
         end; lia.
Qed.

Lemma lower_str_length (s : string) : String.length (Js.lower_str s) = String.length s.
Proof. induction s as [|c r IH]; simpl; congruence. Qed.

Lemma substring_whole (s : string) : substring 0 (String.length s) s = s.
Proof. induction s as [|c r IH]; simpl; congruence. Qed.

Lemma substring_zero (s : string) : substring 0 0 s = EmptyString.
Proof. destruct s; reflexivity. Qed.

Lemma strip_suffix_whole (s : string) :
  (String.eqb (Js.lower_str s) "key" || String.eqb (Js.lower_str s) "id") = true ->
  SpecLabel.strip_suffix s = EmptyString.
Proof.
  intros H. unfold SpecLabel.strip_suffix.
  apply orb_true_iff in H as [H|H]; apply String.eqb_eq in H;
  pose proof (lower_str_length s) as L; rewrite H in L; simpl in L;
  rewrite <- L; cbn [Nat.sub Nat.leb andb];
  first [ replace (substring 0 3 s) with s by (rewrite L; symmetry; apply substring_whole)
        | replace (substring 0 2 s) with s by (rewrite L; symmetry; apply substring_whole) ];
  rewrite H; apply substring_zero.
Qed.

Lemma strip_suffix_cons (c : ascii) (r : string) :
  (String.eqb (Js.lower_str (String c r)) "key"
   || String.eqb (Js.lower_str (String c r)) "id") = false ->
  SpecLabel.strip_suffix (String c r) = String c (SpecLabel.strip_suffix r).
Proof.
  intros H. apply orb_false_iff in H as [Hk Hi].
  unfold SpecLabel.strip_suffix.
  destruct r as [|c1 [|c2 [|c3 r']]];
  cbn [String.length Nat.sub Nat.leb andb substring].
  - reflexivity.
  - rewrite Hi. reflexivity.
  - rewrite Hk.
    destruct (String.eqb (Js.lower_str (String c1 (String c2 EmptyString))) "id");
    reflexivity.
  - rewrite ?Nat.sub_0_r.
    repeat match goal with
           | |- context [if ?b then _ else _] => destruct b
           end; reflexivity.
Qed.

Lemma strip_key_id_spec (s : string) : strip_key_id s = SpecLabel.strip_suffix s.
Proof.
  induction s as [|c r IH]; [reflexivity|].
  cbn [strip_key_id].
  destruct (String.eqb (Js.lower_str (String c r)) "key"
            || String.eqb (Js.lower_str (String c r)) "id") eqn:E.
  - symmetry. now apply strip_suffix_whole.
  - rewrite strip_suffix_cons by exact E. now rewrite IH.
Qed.

Lemma trim_space_before_upper (s : string) :
  Js.trim (space_before_upper s) = Js.trim (SpecLabel.space_internal_upper s).
Proof.
  destruct s as [|c r]; [reflexivity|].
  cbn [space_before_upper SpecLabel.space_internal_upper].
  destruct (Js.is_upper c) eqn:U; [|reflexivity].
  unfold Js.trim. cbn [Js.trim_start].
  replace (Js.is_space " ") with true by reflexivity.
  cbn [Js.trim_start]. rewrite (upper_not_space c U). reflexivity.
Qed.

(** ** The StateForm component *)

Module StateForm.

Inductive Mode := Create | Edit.

(** [StateData] as returned by [GET /api/states/:id]; a JSON [null] or
    missing [stateName] is [None]. *)
Record StateData := mkStateData {
  sd_id : nat;
  sd_stateName : option string;
  sd_createdAt : string;
  sd_updatedAt : string
}.

(** A rejected request as [extractErrorMessage] reads it: [error.message],
    and [error.errors] (when it is an object) as its entries in
    [Object.keys] order, each with its [message] if any. *)
Record ApiError := mkApiError {
  e_message : option string;
  e_errors : option (list (string * option string))
}.

(** [new Error(msg)]. *)
Definition js_error (msg : string) : ApiError := mkApiError (Some msg) None.

(** [StateFormProps]; [onSuccess] records whether the callback is supplied. *)
Record StateFormProps := mkProps {
  mode : Mode;
  stateId : option string;
  onSuccess : bool
}.

Definition is_edit (p : StateFormProps) : bool :=
  match mode p with Edit => true | Create => false end.

Definition extractErrorMessage (error : ApiError) : option string :=
  let fallback := e_message error in
  match e_errors error with
  | Some ((firstKey, msg) :: _) =>
      if Js.truthy firstKey then
        match msg with
        | Some message =>
            if Js.truthy message
            then Some (Js.replace message firstKey (prettifyFieldName firstKey))
            else fallback
        | None => fallback
        end
      else fallback
  | _ => fallback
  end.

(** [extractErrorMessage(error) || fb]. *)
Definition message_or (o : option string) (fb : string) : string :=
  match o with
  | Some s => Js.or_string s fb
  | None => fb
  end.

(** [stateFormSchema]: the zod issues for [stateName], in check order. *)
Definition stateFormSchema_issues (v : string) : list string :=
  (if String.length v <? 1 then ["State name is required"] else [])
  ++ (if 255 <? String.length v
      then ["State name must not exceed 255 characters"] else []).

(** ** Component state and observable effects *)

Inductive QueryStatus :=
| QDisabled
| QLoading
| QSuccess (d : StateData)
| QError (e : ApiError).

Record St := mkSt {
  fieldValue : string;
  defaultValue : string;
  fieldErrors : list (string * string);
  query : QueryStatus;
  createPending : bool;
  updatePending : bool
}.

Inductive KeyPart := KStr (s : string) | KUndefined.

Inductive Effect :=
| HttpGet (url : string)
| HttpPost (url : string) (stateName : string)
| HttpPut (url : string) (stateName : string)
| ToastSuccess (msg : string)
| ToastError (msg : string)
| Invalidate (queryKey : list KeyPart)
| FormReset (value : string)
| CallOnSuccess
| Navigate (path : string)
(** [Validate(error, form.setError)] from src/lib (not embedded). *)
| ValidateCall (error : ApiError).

(** [`${stateId}`] and [stateId] inside a query key. *)
Definition template_id (o : option string) : string :=
  match o with Some s => s | None => "undefined" end.

Definition key_id (o : option string) : KeyPart :=
  match o with Some s => KStr s | None => KUndefined end.

(** Setters for the record fields. *)
Definition set_query (st : St) (q : QueryStatus) : St :=
  mkSt (fieldValue st) (defaultValue st) (fieldErrors st) q
       (createPending st) (updatePending st).
Definition set_value (st : St) (v : string) : St :=
  mkSt v (defaultValue st) (fieldErrors st) (query st)
       (createPending st) (updatePending st).
Definition set_errors (st : St) (es : list (string * string)) : St :=
  mkSt (fieldValue st) (defaultValue st) es (query st)
       (createPending st) (updatePending st).
Definition set_pending (st : St) (c u : bool) : St :=
  mkSt (fieldValue st) (defaultValue st) (fieldErrors st) (query st) c u.

(** [form.reset()]: back to the default values, errors cleared. *)
Definition form_reset (st : St) : St :=
  mkSt (defaultValue st) (defaultValue st) [] (query st)
       (createPending st) (updatePending st).

(** [form.reset({ stateName: v })]: [v] becomes value and default. *)
Definition form_reset_to (st : St) (v : string) : St :=
  mkSt v v [] (query st) (createPending st) (updatePending st).

(** ** useQuery *)

(** [enabled: mode === "edit" && !!stateId]. *)
Definition queryEnabled (p : StateFormProps) : bool :=
  is_edit p && match stateId p with Some s => Js.truthy s | None => false end.

(** [queryFn]: the request it issues, or the error it throws. *)
Definition queryFn (p : StateFormProps) : ApiError + Effect :=
  match stateId p with
  | Some s => if Js.truthy s then inr (HttpGet ("/api/states/" ++ s))
              else inl (js_error "State ID is required")
  | None => inl (js_error "State ID is required")
  end.

Definition isFetchingState (q : QueryStatus) : bool :=
  match q with QLoading => true | _ => false end.

Definition fetchError (q : QueryStatus) : bool :=
  match q with QError _ => true | _ => false end.

(** First render: [useForm] defaults and the query started when enabled. *)
Definition mount (p : StateFormProps) : St * list Effect :=
  let st0 := mkSt "" "" [] QDisabled false false in
  if queryEnabled p then
    match queryFn p with
    | inr req => (set_query st0 QLoading, [req])
    | inl e => (set_query st0 (QError e), [])
    end
  else (st0, []).

(** ** Rendering *)

Inductive View :=
| VLoading
| VFetchFailed
(** The form; [disabled] is the flag on the input and both buttons. *)
| VForm (disabled : bool).

Definition isFormLoading (st : St) : bool :=
  createPending st || updatePending st || isFetchingState (query st).

Definition render (p : StateFormProps) (st : St) : View :=
  if is_edit p && isFetchingState (query st) then VLoading
  else if is_edit p && fetchError (query st) then VFetchFailed
  else VForm (isFormLoading st).

Definition form_enabled (p : StateFormProps) (st : St) : bool :=
  match render p st with VForm false => true | _ => false end.

(** ** Submission: [form.handleSubmit(onSubmit)] *)

(** [onSubmit]: [createMutation.mutate] or [updateMutation.mutate]. *)
Definition onSubmit (p : StateFormProps) (st : St) (v : string) : St * list Effect :=
  match mode p with
  | Create => (set_pending st true (updatePending st), [HttpPost "/api/states" v])
  | Edit => (set_pending st (createPending st) true,
             [HttpPut ("/api/states/" ++ template_id (stateId p)) v])
  end.

(** The zod resolver's errors replace [formState.errors]; [onSubmit] runs
    only when there are none.  Each field shows its first issue. *)
Definition handleSubmit (p : StateFormProps) (st : St) (v : string) : St * list Effect :=
  match stateFormSchema_issues v with
  | [] => onSubmit p (set_errors st []) v
  | m :: _ => (set_errors st [("stateName", m)], [])
  end.

(** [onSuccess ? onSuccess() : navigate("/states")]. *)
Definition completion (p : StateFormProps) : list Effect :=
  if onSuccess p then [CallOnSuccess] else [Navigate "/states"].

Definition createMutation_onSuccess (p : StateFormProps) (st : St) : St * list Effect :=
  (form_reset st,
   [ToastSuccess "State created successfully!";
    Invalidate [KStr "states"];
    FormReset (defaultValue st)] ++ completion p)%list.

Definition updateMutation_onSuccess (p : StateFormProps) (st : St) : St * list Effect :=
  (st,
   [ToastSuccess "State updated successfully!";
    Invalidate [KStr "states"];
    Invalidate [KStr "state"; key_id (stateId p)]] ++ completion p)%list.

(** The two [onError] handlers, with their own fallback text. *)
Definition mutation_onError (fb : string) (st : St) (error : ApiError) : St * list Effect :=
  (st, [ToastError (message_or (extractErrorMessage error) fb); ValidateCall error]).

(** ** Events and the step function *)

Inductive FetchResult := FetchOk (d : StateData) | FetchFailed (e : ApiError).
Inductive MutResult := MutOk | MutFailed (e : ApiError).

Inductive Event :=
| FetchSettled (r : FetchResult)
| CreateSettled (r : MutResult)
| UpdateSettled (r : MutResult)
| TypeInput (v : string)
| ClickSubmit
| PressEnter
| ClickCancel
| ClickBack.


Definition step (p : StateFormProps) (st : St) (ev : Event) : St * list Effect :=
  match ev with
  | FetchSettled r =>
      match query st with
      | QLoading =>
          match r with
          | FetchOk d =>
              let st1 := set_query st (QSuccess d) in
              (* useEffect on [stateData, mode] *)
              if is_edit p then
                let v := match sd_stateName d with
                         | Some n => Js.or_string n ""
                         | None => ""
                         end in
                (form_reset_to st1 v, [FormReset v])
              else (st1, [])
          (* retry: false: the first failure is final *)
          | FetchFailed e => (set_query st (QError e), [])
          end
      | _ => (st, [])
      end
  | CreateSettled r =>
      if createPending st then
        let st1 := set_pending st false (updatePending st) in
        match r with
        | MutOk => createMutation_onSuccess p st1
        | MutFailed e => mutation_onError "Failed to create state" st1 e
        end
      else (st, [])
  | UpdateSettled r =>
      if updatePending st then
        let st1 := set_pending st (createPending st) false in
        match r with
        | MutOk => updateMutation_onSuccess p st1
        | MutFailed e => mutation_onError "Failed to update state" st1 e
        end
      else (st, [])
  | TypeInput v => if form_enabled p st then (set_value st v, []) else (st, [])
  | ClickSubmit | PressEnter =>
      if form_enabled p st then handleSubmit p st (fieldValue st) else (st, [])
  | ClickCancel => if form_enabled p st then (st, completion p) else (st, [])
  | ClickBack =>
      match render p st with
      | VFetchFailed => (st, [Navigate "/states"])
      | _ => (st, [])
      end
  end.

(** States reachable from the first render. *)
Inductive Reachable (p : StateFormProps) : St -> Prop :=
| R_mount : Reachable p (fst (mount p))
| R_step (st : St) (ev : Event) : Reachable p st -> Reachable p (fst (step p st ev)).

(** ** Observations on effect traces *)

Definition is_http (e : Effect) : bool :=
  match e with HttpGet _ | HttpPost _ _ | HttpPut _ _ => true | _ => false end.

Definition is_toast_success (e : Effect) : bool :=
  match e with ToastSuccess _ => true | _ => false end.

Definition is_completion (e : Effect) : bool :=
  match e with CallOnSuccess | Navigate _ => true | _ => false end.

Definition is_form_reset (e : Effect) : bool :=
  match e with FormReset _ => true | _ => false end.

Definition count (f : Effect -> bool) (es : list Effect) : nat :=
  List.length (filter f es).

Fixpoint key_prefix (filt key : list KeyPart) : bool :=
  match filt, key with
  | [], _ => true
  | KStr a :: f', KStr b :: k' => String.eqb a b && key_prefix f' k'
  | KUndefined :: f', KUndefined :: k' => key_prefix f' k'
  | _, _ => false
  end.

(** Some [invalidateQueries] call of the trace matches the cached [key]
    (react-query's partial key match). *)
Definition invalidated (es : list Effect) (key : list KeyPart) : bool :=
  existsb (fun e => match e with Invalidate f => key_prefix f key | _ => false end) es.

Definition list_cache_key : list KeyPart := [KStr "states"].
Definition item_cache_key (p : StateFormProps) : list KeyPart :=
  [KStr "state"; key_id (stateId p)].

End StateForm.

(** ** The wrappers of src/src/modules/states/{Create,Edit}State.tsx *)

Module Wrappers.
Import StateForm.

(** [<StateForm mode="create" onSuccess={onSuccess} />]: no [stateId]. *)
Definition CreateState (onSuccess : bool) : StateFormProps :=
  mkProps Create None onSuccess.

(** [<StateForm mode="edit" stateId={stateId} ... />]. *)
Definition EditState (stateId : string) (onSuccess : bool) : StateFormProps :=
  mkProps Edit (Some stateId) onSuccess.

End Wrappers.

(** ** Dark-mode handling of src/src/layouts/MainLayout.tsx *)

Module MainLayout.

(** [isDarkMode], the [localStorage] entry ["theme"] ([None] for [null]),
    the system preference reported by [matchMedia], and the ["dark"] class
    of [document.documentElement]. *)
Record Layout := mkLayout {
  isDarkMode : bool;
  storedTheme : option string;
  systemDark : bool;
  htmlDark : bool
}.

(** [if (localStorage.getItem("theme"))]. *)
Definition theme_saved (o : option string) : bool :=
  match o with Some t => Js.truthy t | None => false end.

(** The [useState] initializer. *)
Definition initialDarkMode (savedTheme : option string) (systemDark : bool) : bool :=
  match savedTheme with
  | Some t => if Js.truthy t then String.eqb t "dark" else systemDark
  | None => systemDark
  end.

(** First render, with the effect syncing the HTML class. *)
Definition mount (savedTheme : option string) (systemDark : bool) : Layout :=
  let d := initialDarkMode savedTheme systemDark in
  mkLayout d savedTheme systemDark d.

(** [toggleDarkMode], then the class effect. *)
Definition toggleDarkMode (l : Layout) : Layout :=
  let newDarkMode := negb (isDarkMode l) in
  mkLayout newDarkMode (Some (if newDarkMode then "dark" else "light"))
           (systemDark l) newDarkMode.

(** A ["change"] of the system preference: [handleChange] reads
    [localStorage] at that moment. *)
Definition handleChange (l : Layout) (matches : bool) : Layout :=
  if theme_saved (storedTheme l)
  then mkLayout (isDarkMode l) (storedTheme l) matches (htmlDark l)
  else mkLayout matches (storedTheme l) matches matches.

Inductive LayoutEvent := Toggle | SystemChange (matches : bool).

Definition layout_step (l : Layout) (ev : LayoutEvent) : Layout :=
  match ev with
  | Toggle => toggleDarkMode l
  | SystemChange m => handleChange l m
  end.

Fixpoint run (l : Layout) (evs : list LayoutEvent) : Layout :=
  match evs with
  | [] => l
  | ev :: evs' => run (layout_step l ev) evs'
  end.

Fixpoint toggles (evs : list LayoutEvent) : nat :=
  match evs with
  | [] => 0
  | Toggle :: evs' => S (toggles evs')
  | SystemChange _ :: evs' => toggles evs'
  end.

End MainLayout.

(** The write request [onSubmit] sends in each mode, and its mutation's
    pending flag. *)
Module FormObs.
Import StateForm.



End FormObs.

(** ** Claims *)

Module Claims.
Import StateForm.

(** C1: [prettifyFieldName] is the specified label algorithm (take the
    second [_]-segment if any, strip one trailing "key"/"id" ignoring case,
    space out internal capitals, trim, capitalize); on
    ["states_stateNameId"] it gives ["State Name"], on ["states_stateKey"]
    it gives ["State"]. *)
Theorem prettifyFieldName_refines_spec :
  (forall key, prettifyFieldName key = SpecLabel.label key) /\
  prettifyFieldName "states_stateNameId" = "State Name" /\
  prettifyFieldName "states_stateKey" = "State".
Proof.
  split; [|split; reflexivity].
  intros key.
  unfold prettifyFieldName, SpecLabel.label, SpecLabel.first_segment_or_key.
  cbv zeta.
  rewrite strip_key_id_spec, trim_space_before_upper.
  reflexivity.
Qed.

(** C4 (counterexample): the label of the key ["id"] is not ["Id"]. *)
Lemma prettify_id_not_Id : prettifyFieldName "id" <> "Id".
Proof. vm_compute. discriminate. Qed.

(** C4 (as amended): the whole key ["id"] is the stripped suffix, so its
    label is the empty string. *)
Theorem prettify_id_empty : prettifyFieldName "id" = "".
Proof. reflexivity. Qed.

(** C2: a submitted name yields exactly one request iff its length is in
    1..255: a POST in Create mode, a PUT to the record in Edit mode, with no
    field error; otherwise no request and an error on [stateName]. *)
Theorem submit_network_iff_valid (p : StateFormProps) (st : St) (name : string) :
  let '(st', effs) := handleSubmit p st name in
  (count is_http effs = 1 <-> 1 <= String.length name <= 255) /\
  if (1 <=? String.length name) && (String.length name <=? 255) then
    effs = [match mode p with
            | Create => HttpPost "/api/states" name
            | Edit => HttpPut ("/api/states/" ++ template_id (stateId p)) name
            end] /\ fieldErrors st' = []
  else effs = [] /\ exists msg, fieldErrors st' = [("stateName", msg)].
Proof.
  unfold handleSubmit, stateFormSchema_issues, onSubmit, set_errors, set_pending.
  destruct (Nat.ltb_spec (String.length name) 1);
  destruct (Nat.ltb_spec 255 (String.length name)).
  - lia.
  - replace (1 <=? String.length name) with false
      by (symmetry; apply Nat.leb_gt; lia).
    simpl. split; [split; intros; first [lia | discriminate] | split; eauto].
  - replace (1 <=? String.length name) with true
      by (symmetry; apply Nat.leb_le; lia).
    replace (String.length name <=? 255) with false
      by (symmetry; apply Nat.leb_gt; lia).
    simpl. split; [split; intros; first [lia | discriminate] | split; eauto].
  - replace (1 <=? String.length name) with true
      by (symmetry; apply Nat.leb_le; lia).
    replace (String.length name <=? 255) with true
      by (symmetry; apply Nat.leb_le; lia).
    destruct (mode p); simpl; (split; [split; intros; first [lia | reflexivity] | split; reflexivity]).
Qed.

(** The mutation that [onSubmit] uses in each mode, and its success event. *)
Definition pending_of (p : StateFormProps) (st : St) : bool :=
  match mode p with Create => createPending st | Edit => updatePending st end.

Definition success_event (p : StateFormProps) : Event :=
  match mode p with Create => CreateSettled MutOk | Edit => UpdateSettled MutOk end.

(** C3: a successful create or update toasts success once, invalidates the
    list cache, invalidates the record's cache exactly in Edit mode, and
    fires exactly one completion: the callback if supplied, otherwise the
    navigation to ["/states"]. *)
Theorem success_effects (p : StateFormProps) (st : St)
  (Hpending : pending_of p st = true) :
  let effs := snd (step p st (success_event p)) in
  count is_toast_success effs = 1 /\
  invalidated effs list_cache_key = true /\
  invalidated effs (item_cache_key p) = is_edit p /\
  count is_completion effs = 1 /\
  (In CallOnSuccess effs <-> onSuccess p = true) /\
  (In (Navigate "/states") effs <-> onSuccess p = false).
Proof.
  unfold pending_of, success_event in *.
  destruct (mode p) eqn:M; cbn [step]; rewrite Hpending; cbn;
  unfold item_cache_key, completion, is_edit; rewrite M;
  destruct (key_id (stateId p)); destruct (onSuccess p); cbn;
  rewrite ?String.eqb_refl;
  repeat split; try reflexivity; intros;
  first [ repeat match goal with H : _ \/ _ |- _ => destruct H as [H|H] end;
          solve [discriminate | contradiction]
        | auto 10 ].
Qed.

Lemma success_effects_witness :
  pending_of (mkProps Edit (Some "7") false)
             (mkSt "Texas" "Texas" [] QDisabled false true) = true /\
  count is_toast_success
    (snd (step (mkProps Edit (Some "7") false)
               (mkSt "Texas" "Texas" [] QDisabled false true)
               (success_event (mkProps Edit (Some "7") false)))) = 1.
Proof.
  split; [reflexivity|].
  apply (success_effects (mkProps Edit (Some "7") false)
                         (mkSt "Texas" "Texas" [] QDisabled false true)).
  reflexivity.
Defined.

(** C5 (counterexample): in Edit mode without a [stateId] the component
    mounts without any failure: the query is not in error and the form is
    shown ready for input. *)
Lemma edit_without_id_mounts :
  (forall e, query (fst (mount (mkProps Edit None false))) <> QError e) /\
  render (mkProps Edit None false) (fst (mount (mkProps Edit None false))) = VForm false.
Proof. split; [intros e; discriminate | reflexivity]. Qed.

(** C5 (as amended): in Edit mode without a [stateId] nothing is thrown
    and no request is sent (the query is disabled); the form mounts with the
    empty default value, enabled. *)
Theorem edit_without_id_ready (cb : bool) :
  mount (mkProps Edit None cb) = (mkSt "" "" [] QDisabled false false, []) /\
  render (mkProps Edit None cb) (fst (mount (mkProps Edit None cb))) = VForm false.
Proof. split; reflexivity. Qed.

Lemma form_disabled_when_pending (p : StateFormProps) (st : St) :
  createPending st || updatePending st = true -> form_enabled p st = false.
Proof.
  intros H. unfold form_enabled, render, isFormLoading. rewrite H. simpl.
  destruct (is_edit p && isFetchingState (query st)); [reflexivity|].
  destruct (is_edit p && fetchError (query st)); reflexivity.
Qed.

(** C6: while a create or update is pending, the form is never rendered
    enabled, and a click on submit or Enter in the field does nothing. *)
Theorem pending_blocks_submit (p : StateFormProps) (st : St)
  (Hpending : createPending st || updatePending st = true) :
  (forall d, render p st = VForm d -> d = true) /\
  step p st ClickSubmit = (st, []) /\
  step p st PressEnter = (st, []).
Proof.
  pose proof (form_disabled_when_pending p st Hpending) as Hf.
  split; [|cbn [step]; rewrite Hf; split; reflexivity].
  intros d. unfold render, isFormLoading. rewrite Hpending. simpl.
  destruct (is_edit p && isFetchingState (query st)); [discriminate|].
  destruct (is_edit p && fetchError (query st)); [discriminate|].
  congruence.
Qed.

Lemma pending_blocks_submit_witness :
  (createPending (mkSt "Texas" "" [] QDisabled true false)
   || updatePending (mkSt "Texas" "" [] QDisabled true false)) = true /\
  step (mkProps Create None false) (mkSt "Texas" "" [] QDisabled true false) ClickSubmit
  = (mkSt "Texas" "" [] QDisabled true false, []).
Proof.
  split; [reflexivity|].
  apply (pending_blocks_submit (mkProps Create None false)
                               (mkSt "Texas" "" [] QDisabled true false)).
  reflexivity.
Defined.





(** C8 (counterexample): an [errors] object whose first entry has an empty
    message does not give the toast that message; the server's generic
    message is shown instead. *)
Lemma empty_field_message_not_shown :
  snd (step (mkProps Create None false) (mkSt "Texas" "" [] QDisabled true false)
            (CreateSettled (MutFailed
               (mkApiError (Some "Bad request") (Some [("stateName", Some "")])))))
  = [ToastError "Bad request";
     ValidateCall (mkApiError (Some "Bad request") (Some [("stateName", Some "")]))] /\
  "Bad request" <> Js.replace "" "stateName" (prettifyFieldName "stateName").
Proof. split; [reflexivity | vm_compute; discriminate]. Qed.

(** The failure toast as the amended C8 words it: the first [errors] entry
    is used when its key and its message are non-empty, with the first
    occurrence of the key replaced by its label; otherwise the server's
    message; an empty result gives way to the handler's fallback text. *)
Definition amended_toast_message (fb : string) (e : ApiError) : string :=
  let generic := match e_message e with
                 | Some g => if Js.truthy g then g else fb
                 | None => fb
                 end in
  match e_errors e with
  | Some ((k, Some m) :: _) =>
      if Js.truthy k && Js.truthy m then
        let r := Js.replace m k (prettifyFieldName k) in
        if Js.truthy r then r else fb
      else generic
  | _ => generic
  end.

Lemma message_or_toast (fb : string) (e : ApiError) :
  message_or (extractErrorMessage e) fb = amended_toast_message fb e.
Proof.
  destruct e as [msg errs].
  unfold extractErrorMessage, amended_toast_message, message_or, Js.or_string; cbn.
  destruct errs as [[|[k [m|]] rest]|].
  - destruct msg; reflexivity.
  - destruct (Js.truthy k); [|destruct msg; reflexivity].
    destruct (Js.truthy m); [reflexivity|destruct msg; reflexivity].
  - destruct (Js.truthy k); destruct msg; reflexivity.
  - destruct msg; reflexivity.
Qed.

(** C8 (as amended): a failed create toasts [amended_toast_message] with
    the fallback "Failed to create state", a failed update with "Failed to
    update state"; the error is then handed to [Validate]. *)
Theorem failure_toast_message (p : StateFormProps) (st : St) (e : ApiError) :
  snd (step p st (CreateSettled (MutFailed e)))
  = (if createPending st
     then [ToastError (amended_toast_message "Failed to create state" e); ValidateCall e]
     else []) /\
  snd (step p st (UpdateSettled (MutFailed e)))
  = (if updatePending st
     then [ToastError (amended_toast_message "Failed to update state" e); ValidateCall e]
     else []).
Proof.
  cbn [step]. unfold mutation_onError.
  rewrite !message_or_toast.
  destruct (createPending st), (updatePending st); split; reflexivity.
Qed.

Lemma create_default_empty (p : StateFormProps) (st : St) :
  Reachable p st -> mode p = Create -> defaultValue st = "".
Proof.
  intros HR Hm.
  assert (He : is_edit p = false) by (unfold is_edit; rewrite Hm; reflexivity).
  induction HR as [|st ev HR IH].
  - unfold mount, queryEnabled. rewrite He. reflexivity.
  - destruct ev as [[d|e]|[|e]|[|e]|v| | | |]; cbn [step]; rewrite ?He;
    repeat match goal with
           | |- context [match ?x with _ => _ end] => destruct x
           end; try exact IH.
    all: unfold handleSubmit, onSubmit in *;
         repeat match goal with
                | |- context [match ?x with _ => _ end] => destruct x
                end; exact IH.
Qed.

(** C9: after a successful create the field is reset to the empty default
    (recorded before the completion callback or navigation); a successful
    update leaves the field value as it is and resets nothing. *)
Theorem create_resets_update_keeps (p : StateFormProps) (st : St)
  (Hr : Reachable p st) (Hm : mode p = Create) (Hc : createPending st = true) :
  fieldValue (fst (step p st (CreateSettled MutOk))) = "" /\
  snd (step p st (CreateSettled MutOk))
  = ([ToastSuccess "State created successfully!"; Invalidate [KStr "states"];
      FormReset ""] ++ completion p)%list /\
  (forall p' st', fieldValue (fst (step p' st' (UpdateSettled MutOk))) = fieldValue st' /\
                  count is_form_reset (snd (step p' st' (UpdateSettled MutOk))) = 0).
Proof.
  pose proof (create_default_empty p st Hr Hm) as Hd.
  split; [|split].
  - cbn [step]. rewrite Hc. exact Hd.
  - cbn [step]. rewrite Hc. cbn. rewrite Hd. reflexivity.
  - intros p' st'. cbn [step].
    destruct (updatePending st'); [|split; reflexivity].
    unfold updateMutation_onSuccess, completion. cbn.
    destruct (onSuccess p'); split; reflexivity.
Qed.

Lemma create_resets_update_keeps_witness :
  let p := mkProps Create None false in
  let st := fst (step p (fst (step p (fst (mount p)) (TypeInput "Texas"))) ClickSubmit) in
  createPending st = true /\ fieldValue (fst (step p st (CreateSettled MutOk))) = "".
Proof.
  split; [reflexivity|].
  apply (create_resets_update_keeps (mkProps Create None false)).
  - apply R_step. apply R_step. apply R_mount.
  - reflexivity.
  - reflexivity.
Defined.

(** C10: in Edit mode, a successful fetch sets the field to the fetched
    [stateName], and to [""] when it is null, missing or empty; the value
    is always a string. *)
Theorem fetch_success_sets_value (p : StateFormProps) (st : St) (d : StateData)
  (Hm : mode p = Edit) (Hq : query st = QLoading) :
  fieldValue (fst (step p st (FetchSettled (FetchOk d))))
  = match sd_stateName d with Some n => n | None => "" end /\
  snd (step p st (FetchSettled (FetchOk d)))
  = [FormReset match sd_stateName d with Some n => n | None => "" end].
Proof.
  cbn [step]. rewrite Hq. unfold is_edit. rewrite Hm.
  destruct (sd_stateName d) as [n|]; [|split; reflexivity].
  unfold Js.or_string, Js.truthy.
  destruct (String.eqb n "") eqn:E; [apply String.eqb_eq in E; subst|];
  split; reflexivity.
Qed.

Lemma fetch_success_sets_value_witness :
  fieldValue (fst (step (mkProps Edit (Some "7") false)
                        (mkSt "" "" [] QLoading false false)
                        (FetchSettled (FetchOk (mkStateData 7 (Some "Texas") "" "")))))
  = "Texas".
Proof.
  apply (fetch_success_sets_value (mkProps Edit (Some "7") false)
           (mkSt "" "" [] QLoading false false)
           (mkStateData 7 (Some "Texas") "" "")); reflexivity.
Defined.

End Claims.

(** ** Further properties of the code *)

Module LayoutFacts.
Import MainLayout.

(** Reloading the page (a new [mount] with the current [localStorage] and
    system preference) reproduces the current mode, and the HTML class
    always follows [isDarkMode], whatever toggles and system changes
    happened since the first mount. *)
Theorem reload_reproduces_mode (saved : option string) (sys : bool)
  (evs : list LayoutEvent) :
  let l := run (mount saved sys) evs in
  initialDarkMode (storedTheme l) (systemDark l) = isDarkMode l /\
  htmlDark l = isDarkMode l.
Proof.
  cbv zeta.
  assert (Inv : forall l, initialDarkMode (storedTheme l) (systemDark l) = isDarkMode l /\
                          htmlDark l = isDarkMode l ->
                 initialDarkMode (storedTheme (run l evs)) (systemDark (run l evs))
                 = isDarkMode (run l evs) /\ htmlDark (run l evs) = isDarkMode (run l evs)).
  { induction evs as [|ev evs IH]; intros l [H1 H2]; [split; assumption|].
    apply IH. destruct ev as [|m]; cbn.
    - destruct (isDarkMode l); split; reflexivity.
    - unfold handleChange, theme_saved in *.
      destruct (storedTheme l) as [t|] eqn:T; cbn in *.
      + destruct (Js.truthy t) eqn:Ht; cbn; rewrite ?Ht; [|split; reflexivity].
        rewrite ?Ht in H1. split; assumption.
      + split; reflexivity. }
  apply Inv. split; reflexivity.
Qed.

(** Once a theme is saved in [localStorage], system preference changes no
    longer affect the mode: it flips exactly with each toggle. *)
Theorem saved_theme_sticky (l : Layout) (evs : list LayoutEvent)
  (Hsaved : theme_saved (storedTheme l) = true) :
  isDarkMode (run l evs) = xorb (isDarkMode l) (Nat.odd (toggles evs)) /\
  theme_saved (storedTheme (run l evs)) = true.
Proof.
  revert l Hsaved. induction evs as [|ev evs IH]; intros l Hsaved.
  - cbn. rewrite xorb_false_r. split; [reflexivity | assumption].
  - destruct ev as [|m]; cbn [run toggles layout_step].
    + destruct (IH (toggleDarkMode l)) as [H1 H2].
      { unfold toggleDarkMode; cbn. destruct (isDarkMode l); reflexivity. }
      split; [|exact H2]. rewrite H1. cbn. rewrite Nat.odd_succ, <- Nat.negb_odd.
      destruct (isDarkMode l), (Nat.odd (toggles evs)); reflexivity.
    + unfold handleChange at 1 2. rewrite Hsaved.
      destruct (IH (mkLayout (isDarkMode l) (storedTheme l) m (htmlDark l)))
        as [H1 H2]; [exact Hsaved|].
      split; [exact H1 | exact H2].
Qed.

Lemma saved_theme_sticky_witness :
  MainLayout.theme_saved (Some "light") = true /\
  isDarkMode (run (mount (Some "light") true) [SystemChange true; Toggle; SystemChange false])
  = true.
Proof.
  split; [reflexivity|].
  apply (saved_theme_sticky (mount (Some "light") true)
           [SystemChange true; Toggle; SystemChange false]).
  reflexivity.
Defined.

Lemma run_no_toggle_saved (l : Layout) (evs : list LayoutEvent) :
  theme_saved (storedTheme l) = true -> toggles evs = 0 ->
  isDarkMode (run l evs) = isDarkMode l /\ storedTheme (run l evs) = storedTheme l.
Proof.
  revert l. induction evs as [|ev evs IH]; intros l Hs Ht; [split; reflexivity|].
  destruct ev as [|m]; [discriminate|].
  cbn [run layout_step toggles] in *.
  assert (Hc : handleChange l m = mkLayout (isDarkMode l) (storedTheme l) m (htmlDark l))
    by (unfold handleChange; rewrite Hs; reflexivity).
  rewrite Hc. apply (IH (mkLayout (isDarkMode l) (storedTheme l) m (htmlDark l)));
    assumption.
Qed.

(** After any toggle, [localStorage] holds the theme of the current mode:
    ["dark"] when dark, ["light"] otherwise, whatever system preference
    changes came after the last toggle. *)
Theorem stored_theme_matches_mode (l : Layout) (evs : list LayoutEvent)
  (Htog : 0 < toggles evs) :
  storedTheme (run l evs)
  = Some (if isDarkMode (run l evs) then "dark" else "light").
Proof.
  revert l Htog. induction evs as [|ev evs IH]; intros l Htog; [inversion Htog|].
  destruct ev as [|m]; cbn [run layout_step toggles] in *.
  - destruct (toggles evs) eqn:T.
    + assert (Hs : theme_saved (storedTheme (toggleDarkMode l)) = true)
        by (cbn; destruct (isDarkMode l); reflexivity).
      destruct (run_no_toggle_saved (toggleDarkMode l) evs Hs T) as [H1 H2].
      rewrite H1, H2. reflexivity.
    + apply IH. lia.
  - apply IH. exact Htog.
Qed.

Lemma stored_theme_matches_mode_witness :
  0 < toggles [Toggle; SystemChange false; Toggle; SystemChange true] /\
  storedTheme (run (mount None true) [Toggle; SystemChange false; Toggle; SystemChange true])
  = Some "dark".
Proof.
  split; [cbn; lia|].
  apply (stored_theme_matches_mode (mount None true)
           [Toggle; SystemChange false; Toggle; SystemChange true]).
  cbn. lia.
Defined.

(** While no theme is saved and nothing is toggled, the mode follows the
    latest system preference and [localStorage] is never written. *)
Theorem unsaved_follows_system (saved : option string) (sys : bool)
  (evs : list LayoutEvent)
  (Hnone : theme_saved saved = false) (Hnotog : toggles evs = 0) :
  let l := run (mount saved sys) evs in
  isDarkMode l = systemDark l /\ htmlDark l = systemDark l /\ storedTheme l = saved.
Proof.
  cbv zeta.
  assert (Hm : isDarkMode (mount saved sys) = sys).
  { unfold mount, initialDarkMode, theme_saved in *; cbn.
    destruct saved as [t|]; [rewrite Hnone; reflexivity | reflexivity]. }
  assert (Gen : forall l, theme_saved (storedTheme l) = false ->
            isDarkMode l = systemDark l -> htmlDark l = systemDark l ->
            isDarkMode (run l evs) = systemDark (run l evs) /\
            htmlDark (run l evs) = systemDark (run l evs) /\
            storedTheme (run l evs) = storedTheme l).
  { clear Hm. induction evs as [|ev evs IH]; intros l Hs H1 H2;
      [split; [|split]; [exact H1 | exact H2 | reflexivity]|].
    destruct ev as [|m]; [discriminate|].
    cbn [run layout_step toggles] in *.
    assert (Hc : handleChange l m = mkLayout m (storedTheme l) m m)
      by (unfold handleChange; rewrite Hs; reflexivity).
    rewrite Hc. apply (IH Hnotog (mkLayout m (storedTheme l) m m));
      [exact Hs | reflexivity | reflexivity]. }
  apply Gen; cbn; [exact Hnone | exact Hm | exact Hm].
Qed.

Lemma unsaved_follows_system_witness :
  theme_saved (Some "") = false /\ toggles [SystemChange true; SystemChange false] = 0 /\
  isDarkMode (run (mount (Some "") true) [SystemChange true; SystemChange false]) = false.
Proof.
  split; [reflexivity | split; [reflexivity|]].
  apply (unsaved_follows_system (Some "") true [SystemChange true; SystemChange false]);
    reflexivity.
Defined.

End LayoutFacts.

Module StringFacts.

Lemma prefix_app (pat s : string) :
  String.prefix pat s = true ->
  s = pat ++ substring (String.length pat) (String.length s - String.length pat) s.
Proof.
  revert s. induction pat as [|a pat IH]; intros s H.
  - cbn. rewrite Nat.sub_0_r. symmetry. apply substring_whole.
  - destruct s as [|b s]; [discriminate|].
    cbn in H. destruct (ascii_dec a b) as [<-|]; [|discriminate].
    cbn. f_equal. apply IH. exact H.
Qed.

Lemma split_first_unfold (pat s : string) :
  Js.split_first pat s =
  if String.prefix pat s
  then Some (EmptyString, substring (String.length pat) (String.length s - String.length pat) s)
  else match s with
       | EmptyString => None
       | String c r =>
           match Js.split_first pat r with
           | Some (pre, post) => Some (String c pre, post)
           | None => None
           end
       end.
Proof. destruct s; reflexivity. Qed.

(** [indexOf] splits the string around the occurrence it finds. *)
Lemma split_first_some (pat s pre post : string) :
  Js.split_first pat s = Some (pre, post) -> s = pre ++ pat ++ post.
Proof.
  revert pre post. induction s as [|c s IH]; intros pre post H;
  rewrite split_first_unfold in H;
  destruct (String.prefix pat _) eqn:P.
  - injection H as <- <-. apply prefix_app. exact P.
  - discriminate.
  - injection H as <- <-. apply prefix_app. exact P.
  - destruct (Js.split_first pat s) as [[pre' post']|] eqn:E; [|discriminate].
    injection H as <- <-. cbn. f_equal. apply IH. reflexivity.
Qed.

Lemma split_first_none (pat s : string) :
  ~ (exists a b, s = a ++ pat ++ b) -> Js.split_first pat s = None.
Proof.
  intros H. destruct (Js.split_first pat s) as [[pre post]|] eqn:E; [|reflexivity].
  exfalso. apply H. exists pre, post. now apply split_first_some.
Qed.

Lemma get_substitution_cons (m a b : string) (c : ascii) (r : string) :
  c <> "$"%char ->
  Js.get_substitution m a b (String c r) = String c (Js.get_substitution m a b r).
Proof.
  intros H.
  destruct c as [[] [] [] [] [] [] [] []];
  solve [reflexivity | exfalso; apply H; reflexivity].
Qed.

(** A replacement text without [$] is inserted as it is. *)
Lemma get_substitution_plain (m a b rep : string) :
  ~ In "$"%char (list_ascii_of_string rep) -> Js.get_substitution m a b rep = rep.
Proof.
  induction rep as [|c r IH]; intros H; [reflexivity|].
  cbn in H. rewrite get_substitution_cons by (intros E; apply H; left; congruence).
  f_equal. apply IH. intros I. apply H. right. exact I.
Qed.

Lemma split_underscore_free (t : string) :
  ~ In "_"%char (list_ascii_of_string t) -> Js.split_underscore t = [t].
Proof.
  induction t as [|c t IH]; intros H; [reflexivity|].
  cbn in H. cbn [Js.split_underscore].
  rewrite IH by (intros I; apply H; right; exact I).
  destruct (Ascii.eqb c "_") eqn:E; [|reflexivity].
  apply Ascii.eqb_eq in E. exfalso. apply H. left. congruence.
Qed.

Lemma split_underscore_app (t s : string) :
  ~ In "_"%char (list_ascii_of_string t) ->
  Js.split_underscore (t ++ String "_" s) = t :: Js.split_underscore s.
Proof.
  induction t as [|c t IH]; intros H; [reflexivity|].
  cbn in H. cbn [append Js.split_underscore].
  rewrite IH by (intros I; apply H; right; exact I).
  destruct (Ascii.eqb c "_") eqn:E; [|reflexivity].
  apply Ascii.eqb_eq in E. exfalso. apply H. left. congruence.
Qed.

Lemma append_empty_r (s : string) : s ++ EmptyString = s.
Proof. induction s as [|c s IH]; cbn; congruence. Qed.

Lemma length_app (s t : string) :
  String.length (s ++ t) = String.length s + String.length t.
Proof. induction s as [|c s IH]; cbn; congruence. Qed.

End StringFacts.

Module FormFacts.
Import StateForm Wrappers FormObs StringFacts.

(** [prettifyFieldName] reads only the second [_]-segment: the table
    prefix and any further segments are ignored. *)
Theorem prettify_second_segment_only (t f r : string)
  (Ht : ~ In "_"%char (list_ascii_of_string t))
  (Hf : ~ In "_"%char (list_ascii_of_string f))
  (Hr : r = EmptyString \/ exists r', r = String "_" r') :
  prettifyFieldName (t ++ String "_" (f ++ r)) = prettifyFieldName f.
Proof.
  unfold prettifyFieldName.
  rewrite (split_underscore_app t _ Ht), (split_underscore_free f Hf).
  destruct Hr as [->|[r' ->]].
  - rewrite append_empty_r, (split_underscore_free f Hf). reflexivity.
  - rewrite (split_underscore_app f r' Hf). reflexivity.
Qed.

Lemma prettify_second_segment_only_witness :
  prettifyFieldName "states_stateNameId_extra" = prettifyFieldName "stateNameId".
Proof.
  apply (prettify_second_segment_only "states" "stateNameId" "_extra").
  - cbn. intuition discriminate.
  - cbn. intuition discriminate.
  - right. exists "extra". reflexivity.
Defined.

(** [extractErrorMessage] consults only the first [errors] entry: later
    entries never matter, and a first entry with no key, no message or an
    empty message yields [error.message]. *)
Theorem extract_first_entry_only (g : option string) (k : string) (x : string * option string)
  (rest rest' : list (string * option string)) :
  extractErrorMessage (mkApiError g (Some (x :: rest)))
  = extractErrorMessage (mkApiError g (Some (x :: rest'))) /\
  extractErrorMessage (mkApiError g (Some ((k, None) :: rest))) = g /\
  extractErrorMessage (mkApiError g (Some ((k, Some "") :: rest))) = g /\
  extractErrorMessage (mkApiError g (Some (("", Some k) :: rest))) = g /\
  extractErrorMessage (mkApiError g (Some [])) = g /\
  extractErrorMessage (mkApiError g None) = g.
Proof.
  destruct x as [k' m'].
  unfold extractErrorMessage; cbn.
  repeat split; destruct (Js.truthy k); reflexivity.
Qed.

(** When the first field error's message contains the key, the message is
    returned with the key's first occurrence replaced by the label (the
    label taken literally when it has no [$]). *)
Theorem extract_replaces_key (g : option string) (k m pre post : string)
  (rest : list (string * option string))
  (Hk : k <> EmptyString) (Hm : m <> EmptyString)
  (Hsplit : Js.split_first k m = Some (pre, post))
  (Hd : ~ In "$"%char (list_ascii_of_string (prettifyFieldName k))) :
  m = pre ++ k ++ post /\
  extractErrorMessage (mkApiError g (Some ((k, Some m) :: rest)))
  = Some (pre ++ prettifyFieldName k ++ post).
Proof.
  split; [now apply split_first_some|].
  unfold extractErrorMessage, Js.truthy, Js.replace; cbn.
  apply String.eqb_neq in Hk, Hm. rewrite Hk, Hm, Hsplit. cbn.
  rewrite get_substitution_plain by exact Hd. reflexivity.
Qed.

Lemma extract_replaces_key_witness :
  extractErrorMessage (mkApiError None
    (Some [("states_stateName", Some "states_stateName already exists")]))
  = Some ("" ++ "State Name" ++ " already exists").
Proof.
  apply (extract_replaces_key None "states_stateName" "states_stateName already exists"
           "" " already exists" []).
  - discriminate.
  - discriminate.
  - reflexivity.
  - intros H. vm_compute in H. intuition discriminate.
Defined.

(** When the first field error's message does not contain the key, it is
    returned unchanged. *)
Theorem extract_key_absent (g : option string) (k m : string)
  (rest : list (string * option string))
  (Hk : k <> EmptyString) (Hm : m <> EmptyString)
  (Habs : ~ (exists a b, m = a ++ k ++ b)) :
  extractErrorMessage (mkApiError g (Some ((k, Some m) :: rest))) = Some m.
Proof.
  unfold extractErrorMessage, Js.truthy, Js.replace; cbn.
  apply String.eqb_neq in Hk, Hm. rewrite Hk, Hm. cbn.
  rewrite (split_first_none k m Habs). reflexivity.
Qed.

Lemma extract_key_absent_witness :
  extractErrorMessage (mkApiError None (Some [("stateName", Some "Taken")]))
  = Some "Taken".
Proof.
  apply extract_key_absent; [discriminate | discriminate|].
  intros [a [b E]].
  assert (L : String.length "Taken" = String.length (a ++ "stateName" ++ b))
    by (rewrite <- E; reflexivity).
  rewrite !length_app in L. cbn in L. lia.
Defined.

Lemma form_enabled_idle (p : StateFormProps) (st : St) :
  form_enabled p st = true ->
  createPending st = false /\ updatePending st = false /\
  isFetchingState (query st) = false /\
  (is_edit p = true -> fetchError (query st) = false).
Proof.
  unfold form_enabled, render, isFormLoading.
  destruct (is_edit p && isFetchingState (query st)) eqn:E1; [discriminate|].
  destruct (is_edit p && fetchError (query st)) eqn:E2; [discriminate|].
  destruct (createPending st), (updatePending st), (isFetchingState (query st));
  try discriminate; intros _.
  repeat split. intros He. rewrite He in E2. exact E2.
Qed.

Lemma message_or_nonempty (o : option string) (fb : string) :
  fb <> EmptyString -> message_or o fb <> EmptyString.
Proof.
  intros Hfb. unfold message_or, Js.or_string, Js.truthy.
  destruct o as [s|]; [|exact Hfb].
  destruct (String.eqb s EmptyString) eqn:E; cbn; [exact Hfb|].
  apply String.eqb_neq in E. exact E.
Qed.

(** Every error toast the form raises has a non-empty text. *)
Theorem toast_error_nonempty (p : StateFormProps) (st : St) (ev : Event) (msg : string)
  (H : In (ToastError msg) (snd (step p st ev))) :
  msg <> EmptyString.
Proof.
  destruct ev as [r|r|r|v| | | |]; cbn [step] in H;
  unfold handleSubmit, onSubmit, createMutation_onSuccess, updateMutation_onSuccess,
         mutation_onError, completion in H;
  repeat match type of H with
         | context [match ?x with _ => _ end] => destruct x
         end;
  cbn in H; repeat destruct H as [H|H]; try discriminate; try contradiction;
  injection H as <-; apply message_or_nonempty; discriminate.
Qed.

Lemma toast_error_nonempty_witness :
  "Failed to update state" <> EmptyString.
Proof.
  apply (toast_error_nonempty (mkProps Edit (Some "7") false)
           (mkSt "Texas" "Texas" [] (QSuccess (mkStateData 7 (Some "Texas") "" "")) false true)
           (UpdateSettled (MutFailed (mkApiError None None)))).
  cbn. left. reflexivity.
Defined.



(** The invariant of reachable states: Create mode never fetches nor uses
    the update mutation, Edit mode never uses the create mutation, and a
    pending mutation excludes a running or failed fetch. *)
Lemma reachable_inv (p : StateFormProps) (st : St) :
  Reachable p st ->
  (mode p = Create -> query st = QDisabled /\ updatePending st = false) /\
  (mode p = Edit -> createPending st = false) /\
  (createPending st || updatePending st = true ->
   isFetchingState (query st) = false /\ fetchError (query st) = false).
Proof.
  intros HR. induction HR as [|st ev HR [IH1 [IH2 IH3]]].
  - unfold mount, queryEnabled, queryFn, is_edit.
    destruct (mode p); [cbn; repeat split; discriminate|].
    destruct (stateId p) as [s|]; [|cbn; repeat split; discriminate].
    destruct (Js.truthy s); cbn; repeat split; discriminate.
  - destruct ev as [r|r|r|v| | | |]; cbn [step].
    + destruct (query st) eqn:Q; cbn [fst]; try (rewrite ?Q; split; [|split]; assumption).
      assert (Hp : createPending st = false /\ updatePending st = false).
      { destruct (createPending st) eqn:Cp, (updatePending st) eqn:Up;
        try (split; reflexivity); try rewrite Cp in IH3; try rewrite Up in IH3;
        destruct (IH3 eq_refl) as [F _]; try rewrite Q in F; cbn in F; discriminate. }
      destruct Hp as [Hc Hu].
      destruct r as [d|e]; [destruct (is_edit p)|]; cbn;
      (split; [|split]; intros Hm;
       [ destruct (IH1 Hm) as [F _]; discriminate
       | exact Hc
       | rewrite Hc, Hu in Hm; discriminate ]).
    + destruct (createPending st) eqn:Cp; [|cbn [fst]; rewrite ?Cp; split; [|split]; assumption].
      destruct r; cbn;
      (split; [|split]; intros Hm;
       [exact (IH1 Hm) | reflexivity | apply IH3; reflexivity]).
    + destruct (updatePending st) eqn:Up; [|cbn [fst]; rewrite ?Up; split; [|split]; assumption].
      destruct r; cbn;
      (split; [|split]; intros Hm;
       [ destruct (IH1 Hm) as [Hq _]; split; [exact Hq | reflexivity]
       | exact (IH2 Hm)
       | apply IH3; apply orb_true_r ]).
    + destruct (form_enabled p st); cbn; (split; [|split]; assumption).
    + destruct (form_enabled p st) eqn:Fe; [|split; [|split]; assumption].
      destruct (form_enabled_idle p st Fe) as [Hc [Hu [Hf He]]].
      unfold handleSubmit.
      destruct (stateFormSchema_issues (fieldValue st)); [|cbn; split; [|split]; assumption].
      unfold onSubmit, is_edit in *. destruct (mode p) eqn:M; cbn;
      repeat split; try discriminate; try assumption;
      try (destruct (IH1 eq_refl) as [-> _]; reflexivity).
      apply He. reflexivity.
    + destruct (form_enabled p st) eqn:Fe; [|split; [|split]; assumption].
      destruct (form_enabled_idle p st Fe) as [Hc [Hu [Hf He]]].
      unfold handleSubmit.
      destruct (stateFormSchema_issues (fieldValue st)); [|cbn; split; [|split]; assumption].
      unfold onSubmit, is_edit in *. destruct (mode p) eqn:M; cbn;
      repeat split; try discriminate; try assumption;
      try (destruct (IH1 eq_refl) as [-> _]; reflexivity).
      apply He. reflexivity.
    + destruct (form_enabled p st); cbn; (split; [|split]; assumption).
    + destruct (render p st); cbn; (split; [|split]; assumption).
Qed.



(** [CreateState] never fetches and never updates: its mount sends
    nothing, every reachable state has the query disabled and no update
    pending, and every request it sends is a POST of the field value to
    [/api/states]. *)
Theorem create_state_post_only (cb : bool) (st : St)
  (Hr : Reachable (CreateState cb) st) :
  snd (mount (CreateState cb)) = [] /\
  query st = QDisabled /\ updatePending st = false /\
  (forall ev req, In req (snd (step (CreateState cb) st ev)) -> is_http req = true ->
   req = HttpPost "/api/states" (fieldValue st)).
Proof.
  destruct (reachable_inv _ st Hr) as [H1 _].
  destruct (H1 eq_refl) as [Hq Hu].
  split; [reflexivity | split; [exact Hq | split; [exact Hu|]]].
  intros ev req Hin Hhttp.
  destruct ev as [r|r|r|v| | | |]; cbn [step] in *.
  5-6: destruct (form_enabled (CreateState cb) st); [|contradiction];
       unfold handleSubmit in *;
       destruct (stateFormSchema_issues (fieldValue st)); [|contradiction];
       unfold onSubmit, CreateState in Hin; cbn in Hin; destruct Hin as [<-|[]];
       reflexivity.
  all: unfold createMutation_onSuccess, updateMutation_onSuccess,
         mutation_onError, completion in Hin;
       repeat match type of Hin with
              | context [match ?x with _ => _ end] => destruct x
              end;
       cbn in Hin; repeat destruct Hin as [<-|Hin]; try discriminate; contradiction.
Qed.

Lemma create_state_post_only_witness :
  let st := fst (step (CreateState false) (fst (mount (CreateState false)))
                      (TypeInput "Texas")) in
  query st = QDisabled /\
  (forall req, In req (snd (step (CreateState false) st ClickSubmit)) ->
   is_http req = true -> req = HttpPost "/api/states" "Texas").
Proof.
  destruct (create_state_post_only false
              (fst (step (CreateState false) (fst (mount (CreateState false)))
                         (TypeInput "Texas")))
              (R_step _ _ _ (R_mount _))) as [_ [Hq [_ H]]].
  split; [exact Hq|]. exact (H ClickSubmit).
Defined.



(** The [throw new Error("State ID is required")] of [queryFn] is dead
    code: whenever the query is enabled, [queryFn] issues the GET of
    [/api/states/<stateId>]. *)
Theorem queryFn_never_throws_when_enabled (p : StateFormProps)
  (Hen : queryEnabled p = true) :
  queryFn p = inr (HttpGet ("/api/states/" ++ template_id (stateId p))).
Proof.
  unfold queryEnabled, queryFn in *.
  destruct (stateId p) as [s|]; [|rewrite andb_false_r in Hen; discriminate].
  apply andb_prop in Hen. destruct Hen as [_ Hs].
  rewrite Hs. reflexivity.
Qed.

Lemma queryFn_never_throws_when_enabled_witness :
  queryFn (EditState "42" false) = inr (HttpGet "/api/states/42").
Proof.
  apply (queryFn_never_throws_when_enabled (EditState "42" false)). reflexivity.
Defined.

(** [EditState] with an empty id: nothing is fetched, the form is enabled,
    and a valid name is sent as a PUT to [/api/states/] (the collection URL
    with an empty id). *)
Theorem edit_empty_id_puts_collection (cb : bool) (name : string)
  (Hlen : 1 <= String.length name <= 255) :
  let p := EditState "" cb in
  let st0 := fst (mount p) in
  snd (mount p) = [] /\ form_enabled p st0 = true /\
  snd (step p (fst (step p st0 (TypeInput name))) ClickSubmit)
  = [HttpPut "/api/states/" name].
Proof.
  cbv zeta. split; [reflexivity | split; [reflexivity|]].
  cbn [step]. replace (form_enabled (EditState "" cb) (fst (mount (EditState "" cb))))
    with true by reflexivity.
  cbn [fst]. replace (form_enabled (EditState "" cb)
                        (set_value (fst (mount (EditState "" cb))) name)) with true
    by reflexivity.
  unfold handleSubmit, stateFormSchema_issues. cbn [fieldValue set_value].
  destruct (Nat.ltb_spec (String.length name) 1); [lia|].
  destruct (Nat.ltb_spec 255 (String.length name)); [lia|].
  reflexivity.
Qed.

Lemma edit_empty_id_puts_collection_witness :
  snd (step (EditState "" false)
            (fst (step (EditState "" false) (fst (mount (EditState "" false)))
                       (TypeInput "Texas"))) ClickSubmit)
  = [HttpPut "/api/states/" "Texas"].
Proof.
  apply (edit_empty_id_puts_collection false "Texas"). cbn. lia.
Defined.

End FormFacts.
